(** * Upload API of the SDS data manager

    A shallow embedding of
    [sds_data_manager/lambda_code/SDSCode/upload_api.py]: the filename
    matcher [_check_for_matching_filetype], the catalog walk and signing
    call of [_generate_signed_upload_url], and [lambda_handler].

    Python values are modelled as follows.
    - [str] is [string]; every character is one code point below 256.
    - A [dict] with string keys and string values is an association list in
      insertion order, written through [dict_set] (overwrite in place, else
      append) and read through [dict_get].  A dict produced by [json.loads]
      or by API Gateway has pairwise distinct keys.
    - [None] as a return value is [None] of [option]; a raised exception is
      [Raise] of [result].
    - Calls to S3 are recorded, in order, in a trace that is threaded through
      the stateful functions.
    The [logger.info] calls write to the log only and are left out. *)

From Stdlib Require Import String Ascii List Bool Arith ZArith Lia.
Import ListNotations.
Open Scope string_scope.

(** ** Python values *)

Inductive exn : Type :=
| KeyError (key : string)
| TypeError
| IndexError
| UnboundLocalError (name : string)
| ClientError
| JSONDecodeError.

Inductive result (A : Type) : Type :=
| Ok (a : A)
| Raise (e : exn).
Arguments Ok {A} a.
Arguments Raise {A} e.

Definition dict : Type := list (string * string).

Fixpoint dict_get (d : dict) (k : string) : option string :=
  match d with
  | [] => None
  | (k', v) :: rest => if String.eqb k' k then Some v else dict_get rest k
  end.

(** [k in d] *)
Definition dict_mem (d : dict) (k : string) : bool :=
  match dict_get d k with
  | Some _ => true
  | None => false
  end.

(** [d[k] = v] *)
Fixpoint dict_set (d : dict) (k v : string) : dict :=
  match d with
  | [] => [(k, v)]
  | (k', v') :: rest =>
      if String.eqb k' k then (k', v) :: rest else (k', v') :: dict_set rest k v
  end.

Definition keys (d : dict) : list string := map fst d.

(** ** Strings *)

(** [s.replace(old, new)] for one-character [old] and [new]. *)
Fixpoint replace (old new : ascii) (s : string) : string :=
  match s with
  | EmptyString => EmptyString
  | String c rest =>
      String (if Ascii.eqb c old then new else c) (replace old new rest)
  end.

(** [s.split(sep)] for a one-character separator: one more item than there
    are separators, so never the empty list. *)
Fixpoint split (sep : ascii) (s : string) : list string :=
  match s with
  | EmptyString => [EmptyString]
  | String c rest =>
      if Ascii.eqb c sep then EmptyString :: split sep rest
      else match split sep rest with
           | [] => [String c EmptyString]
           | tok :: toks => String c tok :: toks
           end
  end.

(** [s[n:]] *)
Fixpoint slice_from (n : nat) (s : string) : string :=
  match n, s with
  | O, _ => s
  | S _, EmptyString => EmptyString
  | S n', String _ rest => slice_from n' rest
  end.

(** ** [_check_for_matching_filetype] *)

(** A pattern of config.json: field name to literal or ["*"], in the order of
    the document. *)
Definition naming_pattern : Type := dict.

Definition tokenize (filename : string) : list string :=
  split "." (replace "_" "." filename).

(** The [for field in pattern] loop; [i] and [file_dictionary] are the
    locals of the function, and [value] is [pattern[field]]. *)
Fixpoint for_fields (fields : naming_pattern) (split_filename : list string)
    (i : nat) (file_dictionary : dict) : result (option dict) :=
  match fields with
  | [] => Ok (Some file_dictionary)
  | (field, value) :: rest =>
      match nth_error split_filename i with
      | None => Raise IndexError
      | Some tok =>
          if String.eqb value "*" then
            for_fields rest split_filename (S i) (dict_set file_dictionary field tok)
          else if String.eqb value tok then
            for_fields rest split_filename (S i) (dict_set file_dictionary field tok)
          else Ok None
      end
  end.

Definition _check_for_matching_filetype (pat : naming_pattern) (filename : string)
    : result (option dict) :=
  let split_filename := tokenize filename in
  if negb (Nat.eqb (length split_filename) (length pat)) then Ok None
  else for_fields pat split_filename 0 [].


(** The same loop, one iteration at a time.  A configuration is the part of
    the pattern still to visit with the two locals, or the value returned, or
    the exception raised. *)
Inductive walk : Type :=
| Running (fields : naming_pattern) (i : nat) (file_dictionary : dict)
| Returned (r : option dict)
| Raised (e : exn).

Inductive iteration (split_filename : list string) : walk -> walk -> Prop :=
| iter_wildcard field value rest i d tok :
    nth_error split_filename i = Some tok ->
    value = "*" ->
    iteration split_filename
      (Running ((field, value) :: rest) i d)
      (Running rest (S i) (dict_set d field tok))
| iter_literal field value rest i d tok :
    nth_error split_filename i = Some tok ->
    value <> "*" ->
    value = tok ->
    iteration split_filename
      (Running ((field, value) :: rest) i d)
      (Running rest (S i) (dict_set d field tok))
| iter_mismatch field value rest i d tok :
    nth_error split_filename i = Some tok ->
    value <> "*" ->
    value <> tok ->
    iteration split_filename
      (Running ((field, value) :: rest) i d) (Returned None)
| iter_index field value rest i d :
    nth_error split_filename i = None ->
    iteration split_filename
      (Running ((field, value) :: rest) i d) (Raised IndexError)
| iter_exhausted i d :
    iteration split_filename (Running [] i d) (Returned (Some d)).

Inductive iterations (split_filename : list string) : walk -> walk -> Prop :=
| iters_refl w : iterations split_filename w w
| iters_step w1 w2 w3 :
    iteration split_filename w1 w2 ->
    iterations split_filename w2 w3 ->
    iterations split_filename w1 w3.

Definition outcome_of (r : result (option dict)) : walk :=
  match r with
  | Ok v => Returned v
  | Raise e => Raised e
  end.

(** A call of [_check_for_matching_filetype] that ends in [r]. *)
Inductive check_call (pat : naming_pattern) (filename : string)
    : result (option dict) -> Prop :=
| call_count_differs :
    length (tokenize filename) <> length pat ->
    check_call pat filename (Ok None)
| call_walked r :
    length (tokenize filename) = length pat ->
    iterations (tokenize filename) (Running pat 0 []) (outcome_of r) ->
    check_call pat filename r.

(** What a literal-or-wildcard field value lets through. *)
Definition field_accepts (value tok : string) : bool :=
  String.eqb value "*" || String.eqb value tok.

(** ** [json.dumps] of a [str] (the default [ensure_ascii=True]) *)

Definition quote : ascii := ascii_of_nat 34.
Definition backslash : ascii := ascii_of_nat 92.

Definition hex_digit (n : nat) : ascii :=
  if (n <? 10)%nat then ascii_of_nat (48 + n) else ascii_of_nat (87 + n).

Definition escape (c : ascii) : string :=
  let n := nat_of_ascii c in
  if (n =? 34)%nat then String backslash (String quote EmptyString)
  else if (n =? 92)%nat then String backslash (String backslash EmptyString)
  else if (n =? 10)%nat then String backslash "n"
  else if (n =? 13)%nat then String backslash "r"
  else if (n =? 9)%nat then String backslash "t"
  else if (n =? 8)%nat then String backslash "b"
  else if (n =? 12)%nat then String backslash "f"
  else if (n <? 32)%nat || (126 <? n)%nat then
    String backslash
      (String "u" (String "0" (String "0"
        (String (hex_digit (n / 16)) (String (hex_digit (n mod 16)) EmptyString)))))
  else String c EmptyString.

Fixpoint escape_all (s : string) : string :=
  match s with
  | EmptyString => EmptyString
  | String c rest => escape c ++ escape_all rest
  end.

Definition json_dumps (s : string) : string :=
  String quote (escape_all s ++ String quote EmptyString).

(** ** The collaborators *)

(** One entry of config.json. *)
Record filetype : Type := {
  path : string;
  pattern : naming_pattern
}.

Definition catalog : Type := list filetype.

(** The keyword arguments of [generate_presigned_url]. *)
Record presign_request : Type := {
  ClientMethod : string;
  Bucket : string;
  Key : string;
  Metadata : dict;
  ExpiresIn : Z
}.

Inductive call : Type :=
| GetObject (bucket key : string)
| GeneratePresignedUrl (rq : presign_request).

(** What the module reads from outside: [os.environ], the S3 client and the
    JSON decoder on documents of the catalog shape.  [None] stands for the
    exception the collaborator raises. *)
Record platform : Type := {
  environ : dict;
  get_object : string -> string -> option string;
  json_loads : string -> option catalog;
  generate_presigned_url : presign_request -> option string
}.

(** Computations that may raise and that extend the trace of S3 calls. *)
Definition M (A : Type) : Type := list call -> result A * list call.

Definition ret {A} (a : A) : M A := fun t => (Ok a, t).

Definition raise {A} (e : exn) : M A := fun t => (Raise e, t).

Definition bind {A B} (m : M A) (k : A -> M B) : M B :=
  fun t =>
    match m t with
    | (Ok a, t') => k a t'
    | (Raise e, t') => (Raise e, t')
    end.

Notation "x <- m ;; k" := (bind m (fun x => k))
  (at level 61, m at next level, right associativity).

Definition lift {A} (r : result A) : M A := fun t => (r, t).

Definition record (c : call) : M unit := fun t => (Ok tt, (t ++ [c])%list).

(** [os.environ[name]] *)
Definition getenv (p : platform) (name : string) : M string :=
  match dict_get (environ p) name with
  | Some v => ret v
  | None => raise (KeyError name)
  end.

(** [s3.get_object(Bucket=bucket, Key=key)["Body"].read()] *)
Definition s3_get_object (p : platform) (bucket key : string) : M string :=
  _ <- record (GetObject bucket key) ;;
  match get_object p bucket key with
  | Some body => ret body
  | None => raise ClientError
  end.

Definition s3_generate_presigned_url (p : platform) (rq : presign_request)
    : M string :=
  _ <- record (GeneratePresignedUrl rq) ;;
  match generate_presigned_url p rq with
  | Some url => ret url
  | None => raise ClientError
  end.

(** ** [_load_allowed_filenames] *)

Definition _load_allowed_filenames (p : platform) : M catalog :=
  bucket <- getenv p "S3_CONFIG_BUCKET_NAME" ;;
  file_content <- s3_get_object p bucket "config.json" ;;
  match json_loads p file_content with
  | Some filetypes => ret filetypes
  | None => raise JSONDecodeError
  end.

(** ** [_generate_signed_upload_url] *)

(** The two locals the [for filetype in filetypes] loop assigns; [None] is
    a name not bound yet. *)
Record locals : Type := {
  path_to_upload_file : option string;
  metadata : option (option dict)
}.

Definition unbound : locals :=
  {| path_to_upload_file := None; metadata := None |}.

Fixpoint for_filetypes (filetypes : catalog) (filename : string) (l : locals)
    : result locals :=
  match filetypes with
  | [] => Ok l
  | ft :: rest =>
      match _check_for_matching_filetype (pattern ft) filename with
      | Raise e => Raise e
      | Ok m =>
          let l' := {| path_to_upload_file := Some (path ft); metadata := Some m |} in
          match m with
          | Some _ => Ok l'
          | None => for_filetypes rest filename l'
          end
      end
  end.

(** [tags or dict()] *)
Definition tags_or_dict (tags : option dict) : dict :=
  match tags with
  | None => []
  | Some [] => []
  | Some t => t
  end.

Definition _generate_signed_upload_url (p : platform) (filename : string)
    (tags : option dict) : M (option string) :=
  filetypes <- _load_allowed_filenames p ;;
  l <- lift (for_filetypes filetypes filename unbound) ;;
  match metadata l with
  | None => raise (UnboundLocalError "metadata")
  | Some None => ret None
  | Some (Some _) =>
      bucket_name <- getenv p "S3_BUCKET" ;;
      match path_to_upload_file l with
      | None => raise (UnboundLocalError "path_to_upload_file")
      | Some path_to_upload =>
          url <- s3_generate_presigned_url p
                   {| ClientMethod := "put_object";
                      Bucket := slice_from 5 bucket_name;
                      Key := path_to_upload ++ filename;
                      Metadata := tags_or_dict tags;
                      ExpiresIn := 3600 |} ;;
          ret (Some url)
      end
  end.

(** ** [lambda_handler] *)

(** The event: the value under ["queryStringParameters"], if the key is
    there at all; API Gateway sends null for a request without a query
    string. *)
Record event : Type := {
  queryStringParameters : option (option dict)
}.

Record response : Type := {
  statusCode : Z;
  body : string
}.

Definition please_specify : string := "Please specify a filename to upload".

Definition could_not_generate : string :=
  "A pre-signed URL could not be generated. Please ensure that the "
  ++ "file name matches mission file naming conventions.".

Definition lambda_handler (p : platform) (ev : event) : M response :=
  match queryStringParameters ev with
  | None => raise (KeyError "queryStringParameters")
  | Some None => raise TypeError
  | Some (Some params) =>
      if negb (dict_mem params "filename") then
        ret {| statusCode := 400; body := json_dumps please_specify |}
      else
        match dict_get params "filename" with
        | None => raise (KeyError "filename")
        | Some filename =>
            url <- _generate_signed_upload_url p filename (Some params) ;;
            match url with
            | None =>
                ret {| statusCode := 400; body := json_dumps could_not_generate |}
            | Some u => ret {| statusCode := 200; body := json_dumps u |}
            end
        end
  end.

(** ** A sample deployment *)

Definition sample_catalog : catalog :=
  [ {| path := "imap/l0/";
       pattern := [("mission", "imap"); ("instrument", "*"); ("level", "l0");
                   ("date", "*"); ("version", "*"); ("extension", "pkts")] |};
    {| path := "imap/science/";
       pattern := [("mission", "imap"); ("instrument", "*"); ("level", "*");
                   ("date", "*"); ("version", "*"); ("extension", "*")] |};
    {| path := "misc/";
       pattern := [("name", "*")] |} ].

Definition sample_sign (rq : presign_request) : option string :=
  match Bucket rq with
  | EmptyString => None
  | _ => Some ("https://" ++ Bucket rq ++ ".s3.amazonaws.com/" ++ Key rq
               ++ "?X-Amz-Expires=3600")
  end.

Definition sample_platform (c : catalog) : platform :=
  {| environ := [("S3_CONFIG_BUCKET_NAME", "sds-config"); ("S3_BUCKET", "s3://sds-data")];
     get_object := fun bucket key =>
       if String.eqb bucket "sds-config" && String.eqb key "config.json"
       then Some "<config.json>" else None;
     json_loads := fun content =>
       if String.eqb content "<config.json>" then Some c else None;
     generate_presigned_url := sample_sign |}.

Definition request (params : dict) : event :=
  {| queryStringParameters := Some (Some params) |}.

(** The sample deployment under another environment. *)
Definition sample_platform_in (env : dict) (c : catalog) : platform :=
  {| environ := env;
     get_object := get_object (sample_platform c);
     json_loads := json_loads (sample_platform c);
     generate_presigned_url := sample_sign |}.

(** ** Vocabulary of the statements *)

Open Scope list_scope.

(** The dictionary after assigning, left to right, each field its token. *)
Fixpoint record_fields (d : dict) (fields : naming_pattern) (toks : list string)
    : dict :=
  match fields, toks with
  | (field, _) :: fields', tok :: toks' =>
      record_fields (dict_set d field tok) fields' toks'
  | _, _ => d
  end.

(** Field by field, in order, the token is let through. *)
Definition pairwise_accepted (fields : naming_pattern) (toks : list string) : Prop :=
  Forall2 (fun fv tok => field_accepts (snd fv) tok = true) fields toks.

(** [e] is the earliest entry of [c] whose pattern matches [filename], and
    [d] is its match result. *)
Definition first_match (c : catalog) (filename : string) (e : filetype)
    (d : dict) : Prop :=
  exists before after,
    c = (before ++ e :: after)%list /\
    Forall (fun e' => _check_for_matching_filetype (pattern e') filename = Ok None)
           before /\
    _check_for_matching_filetype (pattern e) filename = Ok (Some d).

(** The pattern of [e] does not match [filename]. *)
Definition rejects (filename : string) (e : filetype) : Prop :=
  _check_for_matching_filetype (pattern e) filename = Ok None.

Definition accepted (r : result (option dict)) : bool :=
  match r with
  | Ok (Some _) => true
  | _ => false
  end.

(** The request the function signs for key prefix [prefix]. *)
Definition put_request (bucket_name prefix filename : string) (tags : option dict)
    : presign_request :=
  {| ClientMethod := "put_object";
     Bucket := slice_from 5 bucket_name;
     Key := (prefix ++ filename)%string;
     Metadata := tags_or_dict tags;
     ExpiresIn := 3600 |}.

(** The request carries a filename that is not the empty string. *)
Definition has_nonempty_filename (params : dict) : bool :=
  match dict_get params "filename" with
  | Some EmptyString => false
  | Some _ => true
  | None => false
  end.

(** How many characters of [s] are [c]. *)
Fixpoint count (c : ascii) (s : string) : nat :=
  match s with
  | EmptyString => 0
  | String c' rest => (if Ascii.eqb c' c then 1 else 0) + count c rest
  end.

(** [c in s] for a character [c]. *)
Fixpoint occurs (c : ascii) (s : string) : bool :=
  match s with
  | EmptyString => false
  | String c' rest => Ascii.eqb c' c || occurs c rest
  end.

(** The signing calls among the calls of a trace. *)
Fixpoint signed (calls : list call) : list presign_request :=
  match calls with
  | [] => []
  | GeneratePresignedUrl rq :: rest => rq :: signed rest
  | GetObject _ _ :: rest => signed rest
  end.

(** * Properties *)

Section Tokens.

Lemma split_not_nil (sep : ascii) (s : string) : split sep s <> [].
Proof.
  destruct s as [|c rest]; simpl; [discriminate|].
  destruct (Ascii.eqb c sep); [discriminate|].
  destruct (split sep rest); discriminate.
Qed.

Lemma tokenize_length_pos (filename : string) : 0 < length (tokenize filename).
Proof.
  unfold tokenize.
  pose proof (split_not_nil "." (replace "_" "." filename)) as H.
  destruct (split "." (replace "_" "." filename)); [congruence | simpl; lia].
Qed.

Lemma nth_error_middle (pre : list string) (tok : string) (toks : list string) :
  nth_error (pre ++ tok :: toks) (length pre) = Some tok.
Proof.
  induction pre as [|x pre IH]; simpl; [reflexivity | exact IH].
Qed.

End Tokens.

Section Walk.

Lemma field_accepts_cases (value tok : string) :
  field_accepts value tok = true <-> value = "*" \/ value = tok.
Proof.
  unfold field_accepts. rewrite orb_true_iff, !String.eqb_eq. tauto.
Qed.

Lemma field_rejects_cases (value tok : string) :
  field_accepts value tok = false <-> value <> "*" /\ value <> tok.
Proof.
  unfold field_accepts. rewrite orb_false_iff, !String.eqb_neq. tauto.
Qed.

(** One iteration on a field that lets its token through. *)
Lemma for_fields_pass field value rest toks i d tok :
  nth_error toks i = Some tok ->
  field_accepts value tok = true ->
  for_fields ((field, value) :: rest) toks i d
  = for_fields rest toks (S i) (dict_set d field tok).
Proof.
  intros Hn Ha. simpl. rewrite Hn.
  unfold field_accepts in Ha.
  destruct (String.eqb value "*"); [reflexivity|].
  simpl in Ha. now rewrite Ha.
Qed.

(** One iteration on a field that does not. *)
Lemma for_fields_stop field value rest toks i d tok :
  nth_error toks i = Some tok ->
  field_accepts value tok = false ->
  for_fields ((field, value) :: rest) toks i d = Ok None.
Proof.
  intros Hn Ha. simpl. rewrite Hn.
  apply orb_false_iff in Ha as [H1 H2]. now rewrite H1, H2.
Qed.

Lemma for_fields_accepted fields toks :
  pairwise_accepted fields toks ->
  forall pre d,
    for_fields fields (pre ++ toks) (length pre) d
    = Ok (Some (record_fields d fields toks)).
Proof.
  induction 1 as [|[field value] tok fields toks Ha _ IH]; intros pre d.
  - reflexivity.
  - simpl in Ha.
    rewrite (for_fields_pass _ _ _ _ _ _ tok (nth_error_middle pre tok toks) Ha).
    specialize (IH (pre ++ [tok])%list (dict_set d field tok)).
    rewrite <- app_assoc, length_app in IH. simpl in IH.
    rewrite Nat.add_1_r in IH. exact IH.
Qed.

Lemma for_fields_rejected good tgood :
  pairwise_accepted good tgood ->
  forall field value post tok tpost pre d,
    field_accepts value tok = false ->
    for_fields (good ++ (field, value) :: post) (pre ++ tgood ++ tok :: tpost)
      (length pre) d
    = Ok None.
Proof.
  induction 1 as [|[f v] t good tgood Ha _ IH]; intros field value post tok tpost pre d Hr.
  - simpl. exact (for_fields_stop _ _ _ _ _ _ tok (nth_error_middle pre tok tpost) Hr).
  - simpl in Ha. simpl app.
    rewrite (for_fields_pass _ _ _ _ _ _ t
               (nth_error_middle pre t (tgood ++ tok :: tpost)) Ha).
    specialize (IH field value post tok tpost (pre ++ [t])%list (dict_set d f t) Hr).
    rewrite <- app_assoc, length_app in IH. simpl in IH.
    rewrite Nat.add_1_r in IH. exact IH.
Qed.

(** Two lists of one length agree pairwise or have a first disagreement. *)
Lemma accepted_or_first_mismatch fields :
  forall toks,
    length toks = length fields ->
    pairwise_accepted fields toks \/
    exists good field value post tgood tok tpost,
      fields = (good ++ (field, value) :: post)%list /\
      toks = (tgood ++ tok :: tpost)%list /\
      pairwise_accepted good tgood /\
      field_accepts value tok = false.
Proof.
  induction fields as [|[field value] fields IH]; intros [|tok toks] Hlen;
    try discriminate.
  - left. constructor.
  - destruct (field_accepts value tok) eqn:Ha.
    + destruct (IH toks) as [Hall | (good & f & v & post & tgood & t & tpost & E1 & E2 & Hg & Hr)].
      * simpl in Hlen. lia.
      * left. constructor; [exact Ha | exact Hall].
      * right. exists ((field, value) :: good), f, v, post, (tok :: tgood), t, tpost.
        subst. repeat split; [constructor; [exact Ha | exact Hg] | exact Hr].
    + right. exists [], field, value, fields, [], tok, toks.
      repeat split; [constructor | exact Ha].
Qed.

Lemma dict_set_fresh d k v :
  ~ In k (keys d) -> dict_set d k v = (d ++ [(k, v)])%list.
Proof.
  induction d as [|[k' v'] d IH]; simpl; intros Hn; [reflexivity|].
  destruct (String.eqb k' k) eqn:E.
  - apply String.eqb_eq in E. tauto.
  - rewrite IH by tauto. reflexivity.
Qed.

Lemma record_fields_distinct fields :
  forall toks d,
    length toks = length fields ->
    NoDup (keys d ++ keys fields) ->
    record_fields d fields toks = (d ++ combine (keys fields) toks)%list.
Proof.
  induction fields as [|[field value] fields IH]; intros [|tok toks] d Hlen Hnd;
    try discriminate; simpl.
  - now rewrite app_nil_r.
  - simpl in Hnd.
    assert (Hfresh : ~ In field (keys d)).
    { apply NoDup_remove_2 in Hnd. intro Hin. apply Hnd.
      apply in_or_app. now left. }
    rewrite dict_set_fresh by exact Hfresh.
    rewrite IH.
    + now rewrite <- app_assoc.
    + simpl in Hlen. lia.
    + unfold keys in *. rewrite map_app, <- app_assoc. exact Hnd.
Qed.

End Walk.

Section Matcher.

Lemma check_unfold_same_count pat filename :
  length (tokenize filename) = length pat ->
  _check_for_matching_filetype pat filename
  = for_fields pat (tokenize filename) 0 [].
Proof.
  intros Hlen. unfold _check_for_matching_filetype.
  cbv zeta. rewrite Hlen, Nat.eqb_refl. reflexivity.
Qed.

(** The matcher always returns: the index never leaves the token list. *)
Lemma check_returns pat filename :
  exists r, _check_for_matching_filetype pat filename = Ok r.
Proof.
  unfold _check_for_matching_filetype. cbv zeta.
  destruct (Nat.eqb (length (tokenize filename)) (length pat)) eqn:E; simpl.
  - apply Nat.eqb_eq in E.
    destruct (accepted_or_first_mismatch pat (tokenize filename) E)
      as [Hall | (good & f & v & post & tgood & t & tpost & E1 & E2 & Hg & Hr)].
    + eexists. exact (for_fields_accepted _ _ Hall [] []).
    + exists None. rewrite E1, E2.
      exact (for_fields_rejected _ _ Hg f v post t tpost [] [] Hr).
  - now exists None.
Qed.

(** C1: when the filename has as many tokens as the pattern has fields, the
    matcher goes through fields and tokens pairwise in the order of the
    pattern.  A field whose value is ["*"] lets any token through and a
    literal field lets through only the token equal to it; if every field
    lets its token through, the result is the dictionary that gives each
    field name its token, in order.  At the first field whose literal
    differs from its token the result is no match, whatever fields and
    tokens come after it.  No other filename is matched. *)
Theorem check_walks_fields_pairwise (pat : naming_pattern) (filename : string) :
  NoDup (keys pat) ->
  length (tokenize filename) = length pat ->
  (pairwise_accepted pat (tokenize filename) ->
   _check_for_matching_filetype pat filename
   = Ok (Some (combine (keys pat) (tokenize filename)))) /\
  (forall good field value post tgood tok tpost,
     pat = good ++ (field, value) :: post ->
     tokenize filename = tgood ++ tok :: tpost ->
     pairwise_accepted good tgood ->
     value <> "*" ->
     value <> tok ->
     _check_for_matching_filetype pat filename = Ok None) /\
  (forall d,
     _check_for_matching_filetype pat filename = Ok (Some d) ->
     pairwise_accepted pat (tokenize filename) /\
     d = combine (keys pat) (tokenize filename)).
Proof.
  intros Hnd Hlen.
  rewrite (check_unfold_same_count _ _ Hlen).
  assert (Hyes : pairwise_accepted pat (tokenize filename) ->
                 for_fields pat (tokenize filename) 0 []
                 = Ok (Some (combine (keys pat) (tokenize filename)))).
  { intros Hall.
    pose proof (for_fields_accepted _ _ Hall [] []) as Hrun.
    simpl in Hrun. rewrite Hrun.
    rewrite (record_fields_distinct pat (tokenize filename) [] Hlen Hnd).
    reflexivity. }
  assert (Hno : forall good field value post tgood tok tpost,
             pat = good ++ (field, value) :: post ->
             tokenize filename = tgood ++ tok :: tpost ->
             pairwise_accepted good tgood ->
             value <> "*" -> value <> tok ->
             for_fields pat (tokenize filename) 0 [] = Ok None).
  { intros good field value post tgood tok tpost E1 E2 Hg Hstar Hne.
    rewrite E1, E2.
    apply (for_fields_rejected _ _ Hg field value post tok tpost [] []).
    apply field_rejects_cases. now split. }
  split; [exact Hyes | split; [exact Hno |]].
  intros d Hd.
  destruct (accepted_or_first_mismatch pat (tokenize filename) Hlen)
    as [Hall | (good & f & v & post & tgood & t & tpost & E1 & E2 & Hg & Hr)].
  - split; [exact Hall|]. rewrite (Hyes Hall) in Hd. congruence.
  - apply field_rejects_cases in Hr as [Hstar Hne].
    rewrite (Hno _ _ _ _ _ _ _ E1 E2 Hg Hstar Hne) in Hd. discriminate.
Qed.

(** C2: a filename whose token count, after underscores become dots and the
    name is split on dots, differs from the number of fields of the pattern
    is not matched, whatever the fields and the tokens are. *)
Theorem check_rejects_other_token_count (pat : naming_pattern) (filename : string) :
  length (split "." (replace "_" "." filename)) <> length pat ->
  _check_for_matching_filetype pat filename = Ok None.
Proof.
  intros Hne. unfold _check_for_matching_filetype, tokenize. cbv zeta.
  apply Nat.eqb_neq in Hne. now rewrite Hne.
Qed.

End Matcher.

Section Iterations.

Variable split_filename : list string.

Lemma iteration_deterministic w w1 w2 :
  iteration split_filename w w1 ->
  iteration split_filename w w2 ->
  w1 = w2.
Proof.
  intros H1 H2.
  inversion H1; subst; inversion H2; subst; try congruence.
Qed.

Lemma outcome_halts r w : ~ iteration split_filename (outcome_of r) w.
Proof.
  intros H. destruct r; inversion H.
Qed.

Lemma outcome_of_inj r1 r2 : outcome_of r1 = outcome_of r2 -> r1 = r2.
Proof.
  destruct r1, r2; simpl; congruence.
Qed.

Lemma iterations_outcome_unique w r1 r2 :
  iterations split_filename w (outcome_of r1) ->
  iterations split_filename w (outcome_of r2) ->
  r1 = r2.
Proof.
  intros H1. remember (outcome_of r1) as o1 eqn:E1.
  induction H1 as [w | w wa wb Hstep _ IH]; intros H2.
  - subst w. inversion H2 as [| ? wa ? Hstep _]; subst.
    + now apply outcome_of_inj.
    + now apply outcome_halts in Hstep.
  - inversion H2 as [| ? wa' ? Hstep' Hrest]; subst.
    + now apply outcome_halts in Hstep.
    + rewrite (iteration_deterministic _ _ _ Hstep Hstep') in IH.
      now apply IH.
Qed.

(** The recursive function follows the iterations to their end. *)
Lemma iterations_for_fields fields :
  forall i d,
    iterations split_filename (Running fields i d)
      (outcome_of (for_fields fields split_filename i d)).
Proof.
  induction fields as [|[field value] rest IH]; intros i d.
  - simpl. eapply iters_step; [apply iter_exhausted | apply iters_refl].
  - simpl. destruct (nth_error split_filename i) as [tok|] eqn:Hn.
    + destruct (String.eqb value "*") eqn:Hstar.
      * apply String.eqb_eq in Hstar.
        eapply iters_step; [now apply iter_wildcard with (tok := tok) | apply IH].
      * apply String.eqb_neq in Hstar.
        destruct (String.eqb value tok) eqn:Hlit.
        -- apply String.eqb_eq in Hlit.
           eapply iters_step; [now apply iter_literal with (tok := tok) | apply IH].
        -- apply String.eqb_neq in Hlit.
           eapply iters_step; [now apply iter_mismatch with (tok := tok) | apply iters_refl].
    + eapply iters_step; [now apply iter_index | apply iters_refl].
Qed.

End Iterations.

Section Calls.

Lemma check_call_computes pat filename :
  check_call pat filename (_check_for_matching_filetype pat filename).
Proof.
  unfold _check_for_matching_filetype. cbv zeta.
  destruct (Nat.eqb (length (tokenize filename)) (length pat)) eqn:E; simpl.
  - apply Nat.eqb_eq in E. apply call_walked; [exact E|].
    apply iterations_for_fields.
  - apply Nat.eqb_neq in E. now apply call_count_differs.
Qed.

(** C8: the matcher is deterministic: two calls on the same pattern and the
    same filename end in the same result.  A call is a run of the loop of
    the function, iteration by iteration, from its initial locals; nothing
    but the pattern and the filename enters it. *)
Theorem check_call_deterministic (pat : naming_pattern) (filename : string)
    (r1 r2 : result (option dict)) :
  check_call pat filename r1 ->
  check_call pat filename r2 ->
  r1 = r2.
Proof.
  intros H1 H2.
  destruct H1 as [Hne1 | r1 Hlen1 Hrun1]; destruct H2 as [Hne2 | r2 Hlen2 Hrun2];
    try congruence.
  exact (iterations_outcome_unique _ _ _ _ Hrun1 Hrun2).
Qed.

(** C9: a field whose value is the string ["*"] is a wildcard and nothing
    else.  Whatever the token at its position, the only iteration from such a
    field records the token and goes on to the next field, and this is what
    the function computes.  So no value of a field makes the matcher demand
    the token ["*"] itself: no one-field pattern matches the filename ["*"]
    and no other. *)
Theorem star_value_is_always_a_wildcard :
  (forall split_filename field rest i d tok,
     nth_error split_filename i = Some tok ->
     (forall w,
        iteration split_filename (Running ((field, "*") :: rest) i d) w <->
        w = Running rest (S i) (dict_set d field tok)) /\
     for_fields ((field, "*") :: rest) split_filename i d
     = for_fields rest split_filename (S i) (dict_set d field tok)) /\
  (forall field value,
     ~ (forall filename,
          accepted (_check_for_matching_filetype [(field, value)] filename) = true
          <-> filename = "*")).
Proof.
  split.
  - intros toks field rest i d tok Hn. split.
    + intros w. split.
      * intros Hstep.
        exact (iteration_deterministic toks _ _ _ Hstep
                 (iter_wildcard toks field "*" rest i d tok Hn eq_refl)).
      * intros ->. now apply iter_wildcard.
    + now apply for_fields_pass.
  - intros field value Hall.
    destruct (String.eqb value "*") eqn:Hstar.
    + apply String.eqb_eq in Hstar. subst value.
      assert (Ha : accepted (_check_for_matching_filetype [(field, "*")] "a") = true)
        by reflexivity.
      apply (Hall "a") in Ha. discriminate.
    + assert (Ha : accepted (_check_for_matching_filetype [(field, value)] "*") = true)
        by now apply (Hall "*").
      unfold _check_for_matching_filetype in Ha. simpl in Ha.
      rewrite Hstar in Ha. discriminate.
Qed.

End Calls.

Section Catalog.

Variable filename : string.

Lemma for_filetypes_first_match c e d :
  first_match c filename e d ->
  forall l,
    for_filetypes c filename l
    = Ok {| path_to_upload_file := Some (path e); metadata := Some (Some d) |}.
Proof.
  intros (before & after & -> & Hbefore & He).
  induction Hbefore as [|e0 before H0 _ IH]; intros l; simpl.
  - now rewrite He.
  - rewrite H0. apply IH.
Qed.

Lemma for_filetypes_no_match c :
  Forall (rejects filename) c ->
  forall l,
    for_filetypes c filename l = Ok l /\ c = [] \/
    exists p0,
      for_filetypes c filename l
      = Ok {| path_to_upload_file := Some p0; metadata := Some None |}.
Proof.
  induction 1 as [|e0 c H0 _ IH]; intros l.
  - left. now split.
  - right. simpl. unfold rejects in H0. rewrite H0.
    destruct (IH {| path_to_upload_file := Some (path e0); metadata := Some None |})
      as [[Hl ->] | [p0 Hp0]].
    + now exists (path e0).
    + now exists p0.
Qed.

(** Every catalog either has a first matching entry or none at all. *)
Lemma first_match_or_none c :
  (exists e d, first_match c filename e d) \/ Forall (rejects filename) c.
Proof.
  induction c as [|e0 c IH].
  - right. constructor.
  - destruct (check_returns (pattern e0) filename) as [[d0|] H0].
    + left. exists e0, d0, [], c. repeat split; [constructor | exact H0].
    + destruct IH as [(e & d & before & after & -> & Hb & He) | Hnone].
      * left. exists e, d, (e0 :: before), after.
        repeat split; [constructor; assumption | exact He].
      * right. constructor; assumption.
Qed.

Lemma first_match_before c i ei di :
  nth_error c i = Some ei ->
  _check_for_matching_filetype (pattern ei) filename = Ok (Some di) ->
  exists before e d after,
    c = before ++ e :: after /\
    length before <= i /\
    Forall (rejects filename) before /\
    _check_for_matching_filetype (pattern e) filename = Ok (Some d).
Proof.
  revert i. induction c as [|e0 c IH]; intros i Hi Hm.
  - destruct i; discriminate.
  - destruct (check_returns (pattern e0) filename) as [[d0|] H0].
    + exists [], e0, d0, c. repeat split; [simpl; lia | constructor | exact H0].
    + destruct i as [|i]; simpl in Hi.
      * injection Hi as ->. congruence.
      * destruct (IH i Hi Hm) as (before & e & d & after & -> & Hle & Hb & He).
        exists (e0 :: before), e, d, after.
        repeat split; [simpl; lia | constructor; assumption | exact He].
Qed.

(** C3: when two entries of the catalog both match the filename, the catalog
    walk ends with the path and the match result of the earliest matching
    entry of the catalog, which stands at or before the earlier of the two;
    the walk yields this one path and this one match result. *)
Theorem first_matching_entry_wins (c : catalog) (i j : nat)
    (ei ej : filetype) (di dj : dict) :
  i < j ->
  nth_error c i = Some ei ->
  nth_error c j = Some ej ->
  _check_for_matching_filetype (pattern ei) filename = Ok (Some di) ->
  _check_for_matching_filetype (pattern ej) filename = Ok (Some dj) ->
  exists before e d after,
    c = before ++ e :: after /\
    length before <= i /\
    Forall (fun e' => _check_for_matching_filetype (pattern e') filename = Ok None)
           before /\
    _check_for_matching_filetype (pattern e) filename = Ok (Some d) /\
    for_filetypes c filename unbound
    = Ok {| path_to_upload_file := Some (path e); metadata := Some (Some d) |}.
Proof.
  intros _ Hi _ Hmi _.
  destruct (first_match_before c i ei di Hi Hmi)
    as (before & e & d & after & Hc & Hle & Hb & He).
  exists before, e, d, after. repeat split; try assumption.
  apply for_filetypes_first_match. now exists before, after.
Qed.

End Catalog.

Section Issuance.

Variable p : platform.

Lemma load_inv t c t1 :
  _load_allowed_filenames p t = (Ok c, t1) ->
  exists bucket content,
    dict_get (environ p) "S3_CONFIG_BUCKET_NAME" = Some bucket /\
    get_object p bucket "config.json" = Some content /\
    json_loads p content = Some c /\
    t1 = t ++ [GetObject bucket "config.json"].
Proof.
  unfold _load_allowed_filenames, bind, getenv, s3_get_object.
  destruct (dict_get (environ p) "S3_CONFIG_BUCKET_NAME") as [bucket|];
    [|discriminate].
  unfold bind, record, ret. simpl.
  destruct (get_object p bucket "config.json") as [content|] eqn:Hget;
    [|discriminate].
  destruct (json_loads p content) as [c'|] eqn:Hjson; [|discriminate].
  unfold ret. intros H. injection H as <- <-.
  exists bucket, content. repeat split; assumption.
Qed.

Lemma generate_unfold filename tags t c t1 :
  _load_allowed_filenames p t = (Ok c, t1) ->
  _generate_signed_upload_url p filename tags t
  = match for_filetypes c filename unbound with
    | Raise e => (Raise e, t1)
    | Ok l =>
        match metadata l with
        | None => (Raise (UnboundLocalError "metadata"), t1)
        | Some None => (Ok None, t1)
        | Some (Some _) =>
            match dict_get (environ p) "S3_BUCKET" with
            | None => (Raise (KeyError "S3_BUCKET"), t1)
            | Some bucket_name =>
                match path_to_upload_file l with
                | None => (Raise (UnboundLocalError "path_to_upload_file"), t1)
                | Some prefix =>
                    let rq := put_request bucket_name prefix filename tags in
                    (match generate_presigned_url p rq with
                     | Some url => Ok (Some url)
                     | None => Raise ClientError
                     end, t1 ++ [GeneratePresignedUrl rq])
                end
            end
        end
    end.
Proof.
  intros Hload. unfold _generate_signed_upload_url.
  unfold bind at 1. rewrite Hload.
  unfold bind at 1, lift.
  destruct (for_filetypes c filename unbound) as [l|e]; [|reflexivity].
  destruct (metadata l) as [[d|]|]; try reflexivity.
  unfold bind at 1, getenv.
  destruct (dict_get (environ p) "S3_BUCKET") as [bucket_name|]; [|reflexivity].
  unfold ret at 1.
  destruct (path_to_upload_file l) as [prefix|]; [|reflexivity].
  unfold bind, s3_generate_presigned_url, record, bind. simpl.
  unfold put_request.
  destruct (generate_presigned_url p _); reflexivity.
Qed.

Lemma load_fails_generate_fails filename tags t e t1 :
  _load_allowed_filenames p t = (Raise e, t1) ->
  _generate_signed_upload_url p filename tags t = (Raise e, t1).
Proof.
  intros Hload. unfold _generate_signed_upload_url.
  unfold bind at 1. now rewrite Hload.
Qed.

Lemma tags_or_dict_supplied tags :
  tags_or_dict tags = match tags with Some m => m | None => [] end.
Proof.
  destruct tags as [[|kv m]|]; reflexivity.
Qed.

Lemma slice_from_prefix pre rest : slice_from (String.length pre) (pre ++ rest)%string = rest.
Proof.
  induction pre as [|ch pre IH]; simpl; [now destruct rest | exact IH].
Qed.

End Issuance.

Section Handler.

Variable p : platform.

Lemma handler_unfold ev params filename t :
  queryStringParameters ev = Some (Some params) ->
  dict_get params "filename" = Some filename ->
  lambda_handler p ev t
  = match _generate_signed_upload_url p filename (Some params) t with
    | (Ok None, t1) =>
        (Ok {| statusCode := 400; body := json_dumps could_not_generate |}, t1)
    | (Ok (Some url), t1) =>
        (Ok {| statusCode := 200; body := json_dumps url |}, t1)
    | (Raise e, t1) => (Raise e, t1)
    end.
Proof.
  intros Hq Hf. unfold lambda_handler, dict_mem. rewrite Hq, Hf. simpl.
  unfold bind.
  destruct (_generate_signed_upload_url p filename (Some params) t) as [[[url|]|e] t1];
    reflexivity.
Qed.

(** C4: on a filename that no entry of the loaded catalog matches, the
    handler answers 400 with the no-matching-convention message when the
    catalog has at least one entry, whatever the other parameters are; on the
    empty catalog the name [metadata] is never bound and the handler ends in
    UnboundLocalError instead of a response. *)
Theorem handler_on_unmatched_filename (ev : event) (params : dict)
    (filename : string) (t t1 : list call) (c : catalog) :
  queryStringParameters ev = Some (Some params) ->
  dict_get params "filename" = Some filename ->
  _load_allowed_filenames p t = (Ok c, t1) ->
  Forall (fun e => _check_for_matching_filetype (pattern e) filename = Ok None) c ->
  (c <> [] ->
   lambda_handler p ev t
   = (Ok {| statusCode := 400; body := json_dumps could_not_generate |}, t1)) /\
  (c = [] ->
   lambda_handler p ev t = (Raise (UnboundLocalError "metadata"), t1)).
Proof.
  intros Hq Hf Hload Hnone.
  rewrite (handler_unfold _ _ _ _ Hq Hf).
  rewrite (generate_unfold p filename (Some params) t c t1 Hload).
  split.
  - intros Hne.
    destruct (for_filetypes_no_match filename c Hnone unbound) as [[_ ->] | [p0 Hp0]];
      [congruence|].
    now rewrite Hp0.
  - intros ->. reflexivity.
Qed.

(** C5, as the code has it: when the query parameters are a mapping without
    the key [filename], the handler answers 400 with the message asking for a
    filename and calls nothing: the trace of S3 calls is as it was. *)
Theorem handler_without_filename_key (ev : event) (params : dict) (t : list call) :
  queryStringParameters ev = Some (Some params) ->
  dict_mem params "filename" = false ->
  lambda_handler p ev t
  = (Ok {| statusCode := 400; body := json_dumps please_specify |}, t).
Proof.
  intros Hq Hf. unfold lambda_handler. rewrite Hq, Hf. reflexivity.
Qed.

(** C6: when some entry of the loaded catalog matches the filename of the
    request, and the signer accepts requests for the upload bucket, the
    handler answers 200, the body is the JSON encoding of the URL that the
    signer issued, and that URL was requested for the key made of the path of
    the first matching entry followed by the filename as it was sent. *)
Theorem handler_on_matched_filename (ev : event) (params : dict)
    (filename : string) (t t1 : list call) (c : catalog) (e : filetype)
    (d : dict) (bucket_name : string) :
  queryStringParameters ev = Some (Some params) ->
  dict_get params "filename" = Some filename ->
  _load_allowed_filenames p t = (Ok c, t1) ->
  In e c ->
  _check_for_matching_filetype (pattern e) filename = Ok (Some d) ->
  dict_get (environ p) "S3_BUCKET" = Some bucket_name ->
  (forall rq, Bucket rq = slice_from 5 bucket_name ->
              generate_presigned_url p rq <> None) ->
  exists e1 d1 rq url,
    first_match c filename e1 d1 /\
    Key rq = (path e1 ++ filename)%string /\
    generate_presigned_url p rq = Some url /\
    lambda_handler p ev t
    = (Ok {| statusCode := 200; body := json_dumps url |},
       t1 ++ [GeneratePresignedUrl rq]).
Proof.
  intros Hq Hf Hload Hin Hm Henv Hsign.
  destruct (first_match_or_none filename c) as [(e1 & d1 & Hfirst) | Hnone].
  - pose (rq := put_request bucket_name (path e1) filename (Some params)).
    destruct (generate_presigned_url p rq) as [url|] eqn:Hurl;
      [| now destruct (Hsign rq eq_refl)].
    exists e1, d1, rq, url. repeat split; try assumption.
    rewrite (handler_unfold _ _ _ _ Hq Hf).
    rewrite (generate_unfold p filename (Some params) t c t1 Hload).
    rewrite (for_filetypes_first_match filename c e1 d1 Hfirst). simpl.
    rewrite Henv. cbv zeta. fold rq. now rewrite Hurl.
  - rewrite Forall_forall in Hnone. specialize (Hnone e Hin).
    unfold rejects in Hnone. congruence.
Qed.

(** C10: an event without the key [queryStringParameters], or with null under
    it, gets no response at all: the handler raises (KeyError for the missing
    key, TypeError for the membership test on null) before it calls anything.
    Whenever the handler does answer, the query parameters were a mapping. *)
Theorem handler_needs_query_mapping (ev : event) (t : list call) :
  (queryStringParameters ev = None ->
   lambda_handler p ev t = (Raise (KeyError "queryStringParameters"), t)) /\
  (queryStringParameters ev = Some None ->
   lambda_handler p ev t = (Raise TypeError, t)) /\
  (forall r t1,
     lambda_handler p ev t = (Ok r, t1) ->
     exists params, queryStringParameters ev = Some (Some params)).
Proof.
  unfold lambda_handler.
  destruct (queryStringParameters ev) as [[params|]|].
  - split; [discriminate | split; [discriminate |]].
    intros r t1 _. now exists params.
  - split; [discriminate | split; [reflexivity |]].
    intros r t1 H. discriminate H.
  - split; [reflexivity | split; [discriminate |]].
    intros r t1 H. discriminate H.
Qed.

End Handler.

Section Signing.

Variable p : platform.

(** C7: whenever the function issues a URL, it made exactly one signing
    request, after the one catalog fetch: for [put_object], valid for 3600
    seconds, carrying the metadata mapping it was given (the empty mapping
    when it was given none), on the bucket named by the environment variable
    [S3_BUCKET] without its first five characters, and for the key made of
    the path of the first matching entry followed by the filename. *)
Theorem signing_request_parameters (filename : string) (tags : option dict)
    (t t' : list call) (url : string) :
  _generate_signed_upload_url p filename tags t = (Ok (Some url), t') ->
  exists config_bucket bucket_name c e d,
    dict_get (environ p) "S3_BUCKET" = Some bucket_name /\
    first_match c filename e d /\
    let rq :=
      {| ClientMethod := "put_object";
         Bucket := slice_from 5 bucket_name;
         Key := (path e ++ filename)%string;
         Metadata := match tags with Some m => m | None => [] end;
         ExpiresIn := 3600 |} in
    generate_presigned_url p rq = Some url /\
    t' = t ++ [GetObject config_bucket "config.json"; GeneratePresignedUrl rq] /\
    (forall pre rest,
       bucket_name = (pre ++ rest)%string ->
       String.length pre = 5 ->
       Bucket rq = rest).
Proof.
  intros Hgen.
  destruct (_load_allowed_filenames p t) as [[c|ex] t1] eqn:Hload.
  2:{ rewrite (load_fails_generate_fails p filename tags t ex t1 Hload) in Hgen.
      discriminate. }
  rewrite (generate_unfold p filename tags t c t1 Hload) in Hgen.
  destruct (load_inv p t c t1 Hload) as (config_bucket & content & _ & _ & _ & ->).
  destruct (first_match_or_none filename c) as [(e & d & Hfirst) | Hnone].
  - rewrite (for_filetypes_first_match filename c e d Hfirst) in Hgen.
    simpl in Hgen.
    destruct (dict_get (environ p) "S3_BUCKET") as [bucket_name|]; [|discriminate].
    cbv zeta in Hgen. unfold put_request in Hgen.
    rewrite tags_or_dict_supplied in Hgen.
    match type of Hgen with
    | (match generate_presigned_url p ?rq with _ => _ end, _) = _ =>
        destruct (generate_presigned_url p rq) as [url'|] eqn:Hurl
    end; [|discriminate].
    injection Hgen as -> <-.
    exists config_bucket, bucket_name, c, e, d.
    split; [reflexivity|]. split; [exact Hfirst|]. cbv zeta.
    split; [exact Hurl|]. split.
    + now rewrite <- app_assoc.
    + intros pre rest -> Hpre.
      change (slice_from 5 (pre ++ rest)%string = rest).
      rewrite <- Hpre. apply slice_from_prefix.
  - destruct (for_filetypes_no_match filename c Hnone unbound) as [[Hl _] | [p0 Hp0]].
    + rewrite Hl in Hgen. discriminate.
    + rewrite Hp0 in Hgen. discriminate.
Qed.

End Signing.

(** * The properties on concrete requests *)

Section Examples.

Example tokenize_cdf :
  tokenize "imap_mag_l0_20240101_v001.cdf"
  = ["imap"; "mag"; "l0"; "20240101"; "v001"; "cdf"].
Proof. reflexivity. Qed.

Example tokenize_empty : tokenize "" = [""].
Proof. reflexivity. Qed.

Example tokenize_keeps_empty_tokens : tokenize "a..b_" = ["a"; ""; "b"; ""].
Proof. reflexivity. Qed.

Example check_spec_match :
  _check_for_matching_filetype [("mission", "imap"); ("level", "*")] "imap.l0"
  = Ok (Some [("mission", "imap"); ("level", "l0")]).
Proof. reflexivity. Qed.

Example check_spec_reject :
  _check_for_matching_filetype [("mission", "imap"); ("level", "*")] "esa.l0"
  = Ok None.
Proof. reflexivity. Qed.

Example check_case_sensitive :
  _check_for_matching_filetype [("mission", "imap"); ("level", "*")] "IMAP.l0"
  = Ok None.
Proof. reflexivity. Qed.

Example json_dumps_escapes :
  json_dumps (String (ascii_of_nat 10) (String (ascii_of_nat 127) "a"))
  = String quote (String backslash (String "n" (String backslash
      ("u007fa" ++ String quote EmptyString)%string))).
Proof. reflexivity. Qed.

Example handler_nonempty_unmatched :
  lambda_handler
    (sample_platform [{| path := "x/"; pattern := [("a", "b")] |}])
    (request [("filename", "unknown_file.dat"); ("note", "n")]) []
  = (Ok {| statusCode := 400; body := json_dumps could_not_generate |},
     [GetObject "sds-config" "config.json"]).
Proof. reflexivity. Qed.

End Examples.

Section Witnesses.

Lemma check_walks_fields_pairwise_witness :
  NoDup (keys [("mission", "imap"); ("level", "*")]) /\
  length (tokenize "imap.l0") = length [("mission", "imap"); ("level", "*")] /\
  _check_for_matching_filetype [("mission", "imap"); ("level", "*")] "imap.l0"
  = Ok (Some [("mission", "imap"); ("level", "l0")]).
Proof.
  assert (Hnd : NoDup (keys [("mission", "imap"); ("level", "*")])).
  { repeat constructor; simpl; intuition discriminate. }
  split; [exact Hnd|]. split; [reflexivity|].
  apply (proj1 (check_walks_fields_pairwise
                  [("mission", "imap"); ("level", "*")] "imap.l0" Hnd eq_refl)).
  repeat constructor.
Defined.

Lemma check_rejects_other_token_count_witness :
  length (split "." (replace "_" "." "imap_mag_l0_20240101.pkts"))
  <> length [("mission", "imap"); ("instrument", "*")] /\
  _check_for_matching_filetype [("mission", "imap"); ("instrument", "*")]
    "imap_mag_l0_20240101.pkts"
  = Ok None.
Proof.
  assert (Hne : length (split "." (replace "_" "." "imap_mag_l0_20240101.pkts"))
                <> length [("mission", "imap"); ("instrument", "*")]).
  { simpl. lia. }
  split; [exact Hne|].
  apply (check_rejects_other_token_count
           [("mission", "imap"); ("instrument", "*")] "imap_mag_l0_20240101.pkts" Hne).
Defined.

Lemma first_matching_entry_wins_witness :
  exists before e d after,
    sample_catalog = before ++ e :: after /\
    length before <= 0 /\
    Forall (fun e' =>
              _check_for_matching_filetype (pattern e') "imap_mag_l0_20240101_v001.pkts"
              = Ok None) before /\
    _check_for_matching_filetype (pattern e) "imap_mag_l0_20240101_v001.pkts"
    = Ok (Some d) /\
    for_filetypes sample_catalog "imap_mag_l0_20240101_v001.pkts" unbound
    = Ok {| path_to_upload_file := Some (path e); metadata := Some (Some d) |}.
Proof.
  eapply (first_matching_entry_wins "imap_mag_l0_20240101_v001.pkts"
            sample_catalog 0 1).
  - lia.
  - reflexivity.
  - reflexivity.
  - reflexivity.
  - reflexivity.
Defined.

Lemma handler_on_unmatched_filename_witness :
  lambda_handler (sample_platform [])
    (request [("filename", "unknown_file.dat")]) []
  = (Raise (UnboundLocalError "metadata"), [GetObject "sds-config" "config.json"]).
Proof.
  apply (proj2 (handler_on_unmatched_filename (sample_platform [])
                  (request [("filename", "unknown_file.dat")])
                  [("filename", "unknown_file.dat")] "unknown_file.dat"
                  [] [GetObject "sds-config" "config.json"] []
                  eq_refl eq_refl eq_refl (Forall_nil _))).
  reflexivity.
Defined.

Lemma handler_without_filename_key_witness :
  dict_mem [("instrument", "mag")] "filename" = false /\
  lambda_handler (sample_platform sample_catalog)
    (request [("instrument", "mag")]) []
  = (Ok {| statusCode := 400; body := json_dumps please_specify |}, []).
Proof.
  split; [reflexivity|].
  apply (handler_without_filename_key (sample_platform sample_catalog)
           (request [("instrument", "mag")]) [("instrument", "mag")] []
           eq_refl eq_refl).
Defined.

(** C5 as stated fails: the only filename of this request is the empty
    string, and the handler fetches the catalog, finds the one-field wildcard
    entry, has a URL signed and answers 200. *)
Lemma empty_filename_reaches_the_catalog :
  has_nonempty_filename [("filename", "")] = false /\
  lambda_handler (sample_platform sample_catalog) (request [("filename", "")]) []
  = (Ok {| statusCode := 200;
           body := json_dumps "https://sds-data.s3.amazonaws.com/misc/?X-Amz-Expires=3600" |},
     [GetObject "sds-config" "config.json";
      GeneratePresignedUrl
        {| ClientMethod := "put_object";
           Bucket := "sds-data";
           Key := "misc/";
           Metadata := [("filename", "")];
           ExpiresIn := 3600 |}]).
Proof.
  split; reflexivity.
Qed.

Lemma handler_on_matched_filename_witness :
  exists e1 d1 rq url,
    first_match sample_catalog "imap_mag_l0_20240101_v001.cdf" e1 d1 /\
    Key rq = (path e1 ++ "imap_mag_l0_20240101_v001.cdf")%string /\
    generate_presigned_url (sample_platform sample_catalog) rq = Some url /\
    lambda_handler (sample_platform sample_catalog)
      (request [("filename", "imap_mag_l0_20240101_v001.cdf")]) []
    = (Ok {| statusCode := 200; body := json_dumps url |},
       [GetObject "sds-config" "config.json"] ++ [GeneratePresignedUrl rq]).
Proof.
  eapply (handler_on_matched_filename (sample_platform sample_catalog)
            (request [("filename", "imap_mag_l0_20240101_v001.cdf")])
            [("filename", "imap_mag_l0_20240101_v001.cdf")]
            "imap_mag_l0_20240101_v001.cdf" []
            [GetObject "sds-config" "config.json"] sample_catalog
            {| path := "imap/science/";
               pattern := [("mission", "imap"); ("instrument", "*"); ("level", "*");
                           ("date", "*"); ("version", "*"); ("extension", "*")] |}
            _ "s3://sds-data").
  - reflexivity.
  - reflexivity.
  - reflexivity.
  - simpl. right. left. reflexivity.
  - reflexivity.
  - reflexivity.
  - intros rq Hb. simpl. unfold sample_sign. rewrite Hb. simpl. discriminate.
Defined.

Lemma signing_request_parameters_witness :
  exists config_bucket bucket_name c e d,
    dict_get (environ (sample_platform sample_catalog)) "S3_BUCKET" = Some bucket_name /\
    first_match c "imap_mag_l0_20240101_v001.cdf" e d /\
    let rq :=
      {| ClientMethod := "put_object";
         Bucket := slice_from 5 bucket_name;
         Key := (path e ++ "imap_mag_l0_20240101_v001.cdf")%string;
         Metadata := [];
         ExpiresIn := 3600 |} in
    generate_presigned_url (sample_platform sample_catalog) rq
    = Some "https://sds-data.s3.amazonaws.com/imap/science/imap_mag_l0_20240101_v001.cdf?X-Amz-Expires=3600" /\
    [GetObject "sds-config" "config.json";
     GeneratePresignedUrl
       {| ClientMethod := "put_object";
          Bucket := "sds-data";
          Key := "imap/science/imap_mag_l0_20240101_v001.cdf";
          Metadata := [];
          ExpiresIn := 3600 |}]
    = [] ++ [GetObject config_bucket "config.json"; GeneratePresignedUrl rq] /\
    (forall pre rest,
       bucket_name = (pre ++ rest)%string ->
       String.length pre = 5 ->
       Bucket rq = rest).
Proof.
  apply (signing_request_parameters (sample_platform sample_catalog)
           "imap_mag_l0_20240101_v001.cdf" None [] _ _ eq_refl).
Defined.

Lemma check_call_deterministic_witness :
  _check_for_matching_filetype [("mission", "imap"); ("level", "*")] "imap.l0"
  = Ok (Some [("mission", "imap"); ("level", "l0")]).
Proof.
  apply (check_call_deterministic [("mission", "imap"); ("level", "*")] "imap.l0").
  - apply check_call_computes.
  - apply call_walked; [reflexivity|].
    eapply iters_step.
    { apply iter_literal with (tok := "imap"); [reflexivity | discriminate | reflexivity]. }
    eapply iters_step.
    { apply iter_wildcard with (tok := "l0"); reflexivity. }
    eapply iters_step; [apply iter_exhausted | apply iters_refl].
Defined.

Lemma star_value_is_always_a_wildcard_witness :
  for_fields [("level", "*"); ("version", "v001")] ["imap"; "l0"; "v001"] 1 [("mission", "imap")]
  = for_fields [("version", "v001")] ["imap"; "l0"; "v001"] 2
      [("mission", "imap"); ("level", "l0")] /\
  ~ (forall filename,
       accepted (_check_for_matching_filetype [("level", "*")] filename) = true
       <-> filename = "*").
Proof.
  split.
  - apply (proj2 (proj1 star_value_is_always_a_wildcard
                    ["imap"; "l0"; "v001"] "level" [("version", "v001")] 1
                    [("mission", "imap")] "l0" eq_refl)).
  - apply (proj2 star_value_is_always_a_wildcard "level" "*").
Defined.

Lemma handler_needs_query_mapping_witness :
  lambda_handler (sample_platform sample_catalog)
    {| queryStringParameters := None |} []
  = (Raise (KeyError "queryStringParameters"), []) /\
  lambda_handler (sample_platform sample_catalog)
    {| queryStringParameters := Some None |} []
  = (Raise TypeError, []).
Proof.
  split.
  - apply (proj1 (handler_needs_query_mapping (sample_platform sample_catalog)
                    {| queryStringParameters := None |} [])).
    reflexivity.
  - apply (proj1 (proj2 (handler_needs_query_mapping (sample_platform sample_catalog)
                           {| queryStringParameters := Some None |} []))).
    reflexivity.
Defined.

End Witnesses.

(** * Further properties of the module *)

(** ** Tokens of a filename (line 37) *)

Section Tokenization.

Lemma split_length (sep : ascii) (s : string) :
  length (split sep s) = S (count sep s).
Proof.
  induction s as [|c rest IH]; simpl; [reflexivity|].
  destruct (Ascii.eqb c sep); simpl.
  - now rewrite IH.
  - destruct (split sep rest); simpl in *; [discriminate | exact IH].
Qed.

Lemma count_replace (s : string) :
  count "." (replace "_" "." s) = count "_" s + count "." s.
Proof.
  induction s as [|c rest IH]; simpl; [reflexivity|].
  destruct (Ascii.eqb c "_") eqn:Hu.
  - apply Ascii.eqb_eq in Hu. subst c. simpl. now rewrite IH.
  - simpl. destruct (Ascii.eqb c "."); simpl; rewrite IH; lia.
Qed.

Lemma split_tokens_without (sep : ascii) (s : string) :
  Forall (fun tok => occurs sep tok = false) (split sep s).
Proof.
  induction s as [|c rest IH]; simpl.
  - now constructor.
  - destruct (Ascii.eqb c sep) eqn:Hc.
    + now constructor.
    + destruct (split sep rest) as [|tok toks].
      * constructor; [simpl; now rewrite Hc | constructor].
      * inversion IH; subst. constructor; [simpl; now rewrite Hc | assumption].
Qed.

Lemma split_tokens_from (sep c : ascii) (s : string) :
  occurs c s = false ->
  Forall (fun tok => occurs c tok = false) (split sep s).
Proof.
  induction s as [|c' rest IH]; simpl; intros Hc.
  - now constructor.
  - apply orb_false_iff in Hc as [Hhead Hrest]. specialize (IH Hrest).
    destruct (Ascii.eqb c' sep).
    + now constructor.
    + destruct (split sep rest) as [|tok toks].
      * constructor; [simpl; now rewrite Hhead | constructor].
      * inversion IH; subst. constructor; [simpl; now rewrite Hhead | assumption].
Qed.

Lemma replace_removes (s : string) : occurs "_" (replace "_" "." s) = false.
Proof.
  induction s as [|c rest IH]; simpl; [reflexivity|].
  destruct (Ascii.eqb c "_") eqn:Hu; simpl; [exact IH|].
  now rewrite Hu.
Qed.

Lemma concat_split (sep : ascii) (s : string) :
  String.concat (String sep EmptyString) (split sep s) = s.
Proof.
  induction s as [|c rest IH]; simpl; [reflexivity|].
  pose proof (split_not_nil sep rest) as Hne.
  destruct (Ascii.eqb c sep) eqn:Hc.
  - apply Ascii.eqb_eq in Hc. subst c.
    destruct (split sep rest) as [|tok toks]; [congruence|].
    simpl. simpl in IH. now rewrite IH.
  - destruct (split sep rest) as [|tok toks]; [congruence|].
    destruct toks as [|tok' toks].
    + simpl in *. now rewrite IH.
    + simpl in *. now rewrite IH.
Qed.

Lemma replace_twice (s : string) :
  replace "_" "." (replace "_" "." s) = replace "_" "." s.
Proof.
  induction s as [|c rest IH]; simpl; [reflexivity|].
  rewrite IH. destruct (Ascii.eqb c "_") eqn:Hu; simpl; [reflexivity|].
  now rewrite Hu.
Qed.

Lemma replace_back (s : string) :
  replace "_" "." (replace "." "_" s) = replace "_" "." s.
Proof.
  induction s as [|c rest IH]; simpl; [reflexivity|].
  rewrite IH. destruct (Ascii.eqb c ".") eqn:Hd; simpl.
  - apply Ascii.eqb_eq in Hd. now subst c.
  - reflexivity.
Qed.

(** X1: a filename has one token more than it has underscores and dots;
    the empty filename has the one empty token. *)
Theorem tokenize_count (filename : string) :
  length (tokenize filename) = 1 + count "_" filename + count "." filename.
Proof.
  unfold tokenize. rewrite split_length, count_replace. reflexivity.
Qed.

(** X2: no token contains a dot or an underscore. *)
Theorem tokens_hold_no_separator (filename : string) :
  Forall (fun tok => occurs "." tok = false /\ occurs "_" tok = false)
         (tokenize filename).
Proof.
  unfold tokenize.
  pose proof (split_tokens_without "." (replace "_" "." filename)) as Hdot.
  pose proof (split_tokens_from "." "_" _ (replace_removes filename)) as Hund.
  rewrite Forall_forall in *. intros tok Hin. split; auto.
Qed.

(** X3: the tokens joined by dots give the filename back with every
    underscore turned into a dot: tokenizing loses nothing but which of the
    two separators stood between the tokens. *)
Theorem tokenize_join (filename : string) :
  String.concat "." (tokenize filename) = replace "_" "." filename.
Proof.
  unfold tokenize. apply (concat_split "." (replace "_" "." filename)).
Qed.

(** X4: the matcher does not see which of underscore and dot separates the
    tokens: turning every underscore of the filename into a dot, or every dot
    into an underscore, leaves the result as it was. *)
Theorem check_is_separator_blind (pat : naming_pattern) (filename : string) :
  _check_for_matching_filetype pat (replace "_" "." filename)
  = _check_for_matching_filetype pat filename /\
  _check_for_matching_filetype pat (replace "." "_" filename)
  = _check_for_matching_filetype pat filename.
Proof.
  unfold _check_for_matching_filetype, tokenize.
  now rewrite replace_twice, replace_back.
Qed.

End Tokenization.

(** ** The matcher (lines 28-53) and the catalog walk (lines 66-70) *)

Section MatchResults.

Lemma check_match_inv pat filename d :
  _check_for_matching_filetype pat filename = Ok (Some d) ->
  length (tokenize filename) = length pat /\
  pairwise_accepted pat (tokenize filename) /\
  d = record_fields [] pat (tokenize filename).
Proof.
  unfold _check_for_matching_filetype. cbv zeta.
  destruct (Nat.eqb (length (tokenize filename)) (length pat)) eqn:E; simpl;
    [|discriminate].
  apply Nat.eqb_eq in E. intros Hrun.
  destruct (accepted_or_first_mismatch pat (tokenize filename) E)
    as [Hall | (good & f & v & post & tgood & t & tpost & E1 & E2 & Hg & Hr)].
  - pose proof (for_fields_accepted _ _ Hall [] []) as Hok. simpl in Hok.
    rewrite Hok in Hrun. injection Hrun as <-. now repeat split.
  - pose proof (for_fields_rejected _ _ Hg f v post t tpost [] [] Hr) as Hno.
    simpl in Hno. rewrite E1, E2, Hno in Hrun. discriminate.
Qed.

Lemma dict_set_length d k v : length d <= length (dict_set d k v).
Proof.
  induction d as [|[k' v'] d IH]; simpl; [lia|].
  destruct (String.eqb k' k); simpl; lia.
Qed.

Lemma record_fields_grows fields :
  forall toks d, length d <= length (record_fields d fields toks).
Proof.
  induction fields as [|[field value] fields IH]; intros [|tok toks] d; simpl;
    try lia.
  pose proof (IH toks (dict_set d field tok)).
  pose proof (dict_set_length d field tok). lia.
Qed.

Lemma nth_error_key (pat : naming_pattern) k field value :
  nth_error pat k = Some (field, value) -> In field (keys pat).
Proof.
  intros H. apply nth_error_In in H.
  unfold keys. change field with (fst (field, value)). now apply in_map.
Qed.

Lemma accepted_lookup pat toks :
  pairwise_accepted pat toks ->
  NoDup (keys pat) ->
  forall k field value,
    nth_error pat k = Some (field, value) ->
    exists tok,
      nth_error toks k = Some tok /\
      field_accepts value tok = true /\
      dict_get (combine (keys pat) toks) field = Some tok.
Proof.
  induction 1 as [|[f0 v0] t0 pat toks Ha _ IH]; intros Hnd k field value Hk.
  - destruct k; discriminate.
  - simpl in Hnd. inversion Hnd as [|? ? Hfresh Hnd']; subst.
    destruct k as [|k]; simpl in Hk.
    + injection Hk as -> ->. exists t0. simpl. rewrite String.eqb_refl.
      now repeat split.
    + destruct (IH Hnd' k field value Hk) as (tok & Hn & Hacc & Hget).
      exists tok. simpl. repeat split; try assumption.
      destruct (String.eqb f0 field) eqn:E; [|exact Hget].
      apply String.eqb_eq in E. subst f0.
      exfalso. apply Hfresh. exact (nth_error_key _ _ _ _ Hk).
Qed.

(** X5: the matcher never raises: its index stays inside the token list, so
    IndexError cannot occur, and the walk over a catalog never raises
    either. *)
Theorem matcher_never_raises (pat : naming_pattern) (c : catalog)
    (filename : string) (l : locals) (e : exn) :
  _check_for_matching_filetype pat filename <> Raise e /\
  for_filetypes c filename l <> Raise e.
Proof.
  split.
  - destruct (check_returns pat filename) as [r Hr]. rewrite Hr. discriminate.
  - revert l. induction c as [|ft c IH]; intros l; simpl; [discriminate|].
    destruct (check_returns (pattern ft) filename) as [[d|] Hr]; rewrite Hr.
    + discriminate.
    + apply IH.
Qed.

(** X6: a match needs as many tokens as fields, so the pattern without
    fields matches no filename, and a match result is never the empty
    dictionary. *)
Theorem match_needs_equal_counts (pat : naming_pattern) (filename : string)
    (d : dict) :
  _check_for_matching_filetype pat filename = Ok (Some d) ->
  length (tokenize filename) = length pat /\ pat <> [] /\ d <> [].
Proof.
  intros Hm. destruct (check_match_inv _ _ _ Hm) as (Hlen & _ & ->).
  pose proof (tokenize_length_pos filename) as Hpos.
  split; [exact Hlen|].
  destruct pat as [|[field value] pat]; [simpl in Hlen; lia|].
  split; [discriminate|].
  destruct (tokenize filename) as [|tok toks]; [simpl in Hpos; lia|].
  simpl. intros Hnil.
  pose proof (record_fields_grows pat toks (dict_set [] field tok)) as Hg.
  simpl in Hg. rewrite Hnil in Hg. simpl in Hg. lia.
Qed.

(** X7: in the result of a match on a pattern with distinct field names,
    looking up the field at position [k] gives the token at position [k]; for
    a literal field this token is the literal of the pattern. *)
Theorem match_result_lookup (pat : naming_pattern) (filename : string)
    (d : dict) (k : nat) (field value : string) :
  NoDup (keys pat) ->
  _check_for_matching_filetype pat filename = Ok (Some d) ->
  nth_error pat k = Some (field, value) ->
  exists tok,
    nth_error (tokenize filename) k = Some tok /\
    dict_get d field = Some tok /\
    (value <> "*" -> tok = value).
Proof.
  intros Hnd Hm Hk.
  destruct (check_match_inv _ _ _ Hm) as (Hlen & Hall & ->).
  rewrite (record_fields_distinct pat (tokenize filename) [] Hlen Hnd). simpl.
  destruct (accepted_lookup _ _ Hall Hnd k field value Hk) as (tok & Hn & Hacc & Hget).
  exists tok. repeat split; try assumption.
  intros Hlit. apply field_accepts_cases in Hacc as [Hstar | Heq]; congruence.
Qed.

(** X8: the catalog walk stops at the first matching entry: what it ends
    with depends neither on the entries after that one nor on what the two
    locals held before the loop. *)
Theorem walk_ignores_later_entries (filename : string)
    (before after after' : catalog) (e : filetype) (d : dict) (l l' : locals) :
  Forall (fun e' => _check_for_matching_filetype (pattern e') filename = Ok None)
         before ->
  _check_for_matching_filetype (pattern e) filename = Ok (Some d) ->
  for_filetypes (before ++ e :: after) filename l
  = for_filetypes (before ++ e :: after') filename l'.
Proof.
  intros Hb He.
  rewrite (for_filetypes_first_match filename (before ++ e :: after) e d)
    by now exists before, after.
  rewrite (for_filetypes_first_match filename (before ++ e :: after') e d)
    by now exists before, after'.
  reflexivity.
Qed.

End MatchResults.

(** ** Loading the catalog (lines 14-25) and issuing (lines 56-87) *)

Section Outcomes.

Variable p : platform.

Lemma load_cases t r t1 :
  _load_allowed_filenames p t = (r, t1) ->
  (dict_get (environ p) "S3_CONFIG_BUCKET_NAME" = None /\
   r = Raise (KeyError "S3_CONFIG_BUCKET_NAME") /\ t1 = t) \/
  (exists bucket,
     dict_get (environ p) "S3_CONFIG_BUCKET_NAME" = Some bucket /\
     t1 = t ++ [GetObject bucket "config.json"] /\
     r = match get_object p bucket "config.json" with
         | None => Raise ClientError
         | Some content =>
             match json_loads p content with
             | None => Raise JSONDecodeError
             | Some c => Ok c
             end
         end).
Proof.
  unfold _load_allowed_filenames, bind, getenv, s3_get_object.
  destruct (dict_get (environ p) "S3_CONFIG_BUCKET_NAME") as [bucket|].
  - unfold bind, record, ret, raise. simpl. intros H. right. exists bucket.
    split; [reflexivity|].
    destruct (get_object p bucket "config.json") as [content|].
    + destruct (json_loads p content); injection H as <- <-; now split.
    + injection H as <- <-. now split.
  - unfold raise. intros H. injection H as <- <-. left. now repeat split.
Qed.

Lemma generate_cases filename tags t r t' :
  _generate_signed_upload_url p filename tags t = (r, t') ->
  (dict_get (environ p) "S3_CONFIG_BUCKET_NAME" = None /\
   r = Raise (KeyError "S3_CONFIG_BUCKET_NAME") /\ t' = t) \/
  (exists bucket,
     dict_get (environ p) "S3_CONFIG_BUCKET_NAME" = Some bucket /\
     t' = t ++ [GetObject bucket "config.json"] /\
     (r = Ok None \/ exists e, r = Raise e)) \/
  (exists bucket c e d bucket_name,
     dict_get (environ p) "S3_CONFIG_BUCKET_NAME" = Some bucket /\
     _load_allowed_filenames p t = (Ok c, t ++ [GetObject bucket "config.json"]) /\
     first_match c filename e d /\
     dict_get (environ p) "S3_BUCKET" = Some bucket_name /\
     t' = t ++ [GetObject bucket "config.json";
                GeneratePresignedUrl (put_request bucket_name (path e) filename tags)] /\
     r = match generate_presigned_url p
                 (put_request bucket_name (path e) filename tags) with
         | Some url => Ok (Some url)
         | None => Raise ClientError
         end).
Proof.
  intros Hgen.
  destruct (_load_allowed_filenames p t) as [[c|ex] t1] eqn:Hload.
  - destruct (load_inv p t c t1 Hload) as (bucket & content & Henv & _ & _ & ->).
    rewrite (generate_unfold p filename tags t c _ Hload) in Hgen.
    destruct (first_match_or_none filename c) as [(e & d & Hfirst) | Hnone].
    + rewrite (for_filetypes_first_match filename c e d Hfirst) in Hgen.
      simpl in Hgen.
      destruct (dict_get (environ p) "S3_BUCKET") as [bucket_name|] eqn:Hb.
      * cbv zeta in Hgen. injection Hgen as <- <-.
        right. right. exists bucket, c, e, d, bucket_name.
        repeat split; try assumption. now rewrite <- app_assoc.
      * injection Hgen as <- <-. right. left. exists bucket.
        repeat split; try assumption. right. now eexists.
    + right. left. exists bucket. split; [exact Henv|].
      destruct (for_filetypes_no_match filename c Hnone unbound) as [[Hl _] | [p0 Hp0]].
      * rewrite Hl in Hgen. simpl in Hgen. injection Hgen as <- <-.
        split; [reflexivity|]. right. now eexists.
      * rewrite Hp0 in Hgen. simpl in Hgen. injection Hgen as <- <-.
        split; [reflexivity|]. now left.
  - rewrite (load_fails_generate_fails p filename tags t ex t1 Hload) in Hgen.
    injection Hgen as <- <-.
    destruct (load_cases t _ _ Hload) as [(Henv & Hr & ->) | (bucket & Henv & -> & Hr)].
    + injection Hr as ->. left. now repeat split.
    + right. left. exists bucket.
      split; [exact Henv | split; [reflexivity |]].
      right. now eexists.
Qed.

(** X9: the catalog is loaded exactly when the environment names the
    configuration bucket, S3 returns the object [config.json] of that bucket
    and its content decodes; the load then made one call, the fetch of that
    object. *)
Theorem load_succeeds_iff (t t1 : list call) (c : catalog) :
  _load_allowed_filenames p t = (Ok c, t1) <->
  exists bucket content,
    dict_get (environ p) "S3_CONFIG_BUCKET_NAME" = Some bucket /\
    get_object p bucket "config.json" = Some content /\
    json_loads p content = Some c /\
    t1 = t ++ [GetObject bucket "config.json"].
Proof.
  split.
  - apply load_inv.
  - intros (bucket & content & Henv & Hget & Hjson & ->).
    unfold _load_allowed_filenames, bind, getenv, s3_get_object.
    rewrite Henv. unfold bind, record, ret. simpl.
    rewrite Hget, Hjson. reflexivity.
Qed.

(** X10: the bucket of a signing request is what is left of the value of
    [S3_BUCKET] after its first five characters, or the empty string when
    the value has five characters or fewer. *)
Theorem sliced_bucket_is_suffix (filename : string) (tags : option dict)
    (t t' : list call) (url bucket_name : string) :
  _generate_signed_upload_url p filename tags t = (Ok (Some url), t') ->
  dict_get (environ p) "S3_BUCKET" = Some bucket_name ->
  exists rq before stripped,
    t' = before ++ [GeneratePresignedUrl rq] /\
    bucket_name = (stripped ++ Bucket rq)%string /\
    String.length stripped = Nat.min 5 (String.length bucket_name).
Proof.
  intros Hgen Henv.
  destruct (generate_cases _ _ _ _ _ Hgen)
    as [(_ & Hr & _) | [(b & _ & _ & [Hr | [e Hr]]) |
        (b & c & e & d & bn & _ & _ & _ & Hbn & -> & _)]];
    try discriminate.
  rewrite Henv in Hbn. injection Hbn as <-.
  assert (Hsplit : forall n s, exists pre,
             s = (pre ++ slice_from n s)%string /\
             String.length pre = Nat.min n (String.length s)).
  { induction n as [|n IH]; intros s.
    - exists EmptyString. now split.
    - destruct s as [|ch s]; [exists EmptyString; now split|].
      destruct (IH s) as (pre & Hs & Hl).
      exists (String ch pre). simpl. split; [now rewrite <- Hs | now rewrite Hl]. }
  destruct (Hsplit 5 bucket_name) as (stripped & Hs & Hl).
  exists (put_request bucket_name (path e) filename tags),
         (t ++ [GetObject b "config.json"]), stripped.
  split; [now rewrite <- app_assoc | split; [exact Hs | exact Hl]].
Qed.

End Outcomes.

(** ** The handler as a whole (lines 90-126) *)

Section Responses.

Variable p : platform.

Lemma signed_app (t1 t2 : list call) : signed (t1 ++ t2) = signed t1 ++ signed t2.
Proof.
  induction t1 as [|[b k|rq] t1 IH]; simpl; congruence.
Qed.

Lemma handler_cases ev t r t' :
  lambda_handler p ev t = (r, t') ->
  (t' = t /\
   (r = Ok {| statusCode := 400; body := json_dumps please_specify |} \/
    exists e, r = Raise e)) \/
  (exists bucket,
     dict_get (environ p) "S3_CONFIG_BUCKET_NAME" = Some bucket /\
     t' = t ++ [GetObject bucket "config.json"] /\
     (r = Ok {| statusCode := 400; body := json_dumps could_not_generate |} \/
      exists e, r = Raise e)) \/
  (exists bucket params filename c e d bucket_name,
     queryStringParameters ev = Some (Some params) /\
     dict_get params "filename" = Some filename /\
     dict_get (environ p) "S3_CONFIG_BUCKET_NAME" = Some bucket /\
     _load_allowed_filenames p t = (Ok c, t ++ [GetObject bucket "config.json"]) /\
     first_match c filename e d /\
     dict_get (environ p) "S3_BUCKET" = Some bucket_name /\
     t' = t ++ [GetObject bucket "config.json";
                GeneratePresignedUrl
                  (put_request bucket_name (path e) filename (Some params))] /\
     r = match generate_presigned_url p
                 (put_request bucket_name (path e) filename (Some params)) with
         | Some url => Ok {| statusCode := 200; body := json_dumps url |}
         | None => Raise ClientError
         end).
Proof.
  destruct (queryStringParameters ev) as [[params|]|] eqn:Hq.
  - destruct (dict_get params "filename") as [filename|] eqn:Hf.
    + rewrite (handler_unfold p ev params filename t Hq Hf).
      destruct (_generate_signed_upload_url p filename (Some params) t)
        as [rg tg] eqn:Hgen.
      destruct (generate_cases p _ _ _ _ _ Hgen)
        as [(_ & -> & ->) | [(b & Henv & -> & Hrg) |
            (b & c & e & d & bn & Henv & Hload & Hfirst & Hbn & -> & ->)]].
      * intros H. injection H as <- <-. left. split; [reflexivity|].
        right. now eexists.
      * intros H. right. left. exists b. split; [exact Henv|].
        destruct Hrg as [-> | [e ->]]; injection H as <- <-;
          (split; [reflexivity|]); [now left | right; now eexists].
      * intros H. right. right. exists b, params, filename, c, e, d, bn.
        destruct (generate_presigned_url p _); injection H as <- <-;
          now repeat split.
    + unfold lambda_handler, dict_mem. rewrite Hq, Hf. simpl.
      unfold ret. intros H. injection H as <- <-. left. split; [reflexivity|].
      now left.
  - unfold lambda_handler. rewrite Hq. unfold raise. intros H.
    injection H as <- <-. left. split; [reflexivity|]. right. now eexists.
  - unfold lambda_handler. rewrite Hq. unfold raise. intros H.
    injection H as <- <-. left. split; [reflexivity|]. right. now eexists.
Qed.

(** X11: whatever the event and however the run ends, the handler calls S3
    at most twice: first, if at all, one fetch of [config.json] from the
    configuration bucket named by the environment, then, if at all, one
    signing request.  It never signs without having fetched the catalog, and
    it fetches nothing else. *)
Theorem handler_call_discipline (ev : event) (t t' : list call)
    (r : result response) :
  lambda_handler p ev t = (r, t') ->
  t' = t \/
  exists bucket,
    dict_get (environ p) "S3_CONFIG_BUCKET_NAME" = Some bucket /\
    (t' = t ++ [GetObject bucket "config.json"] \/
     exists rq,
       t' = t ++ [GetObject bucket "config.json"; GeneratePresignedUrl rq]).
Proof.
  intros H.
  destruct (handler_cases _ _ _ _ H)
    as [(-> & _) | [(b & Henv & -> & _) |
        (b & params & filename & c & e & d & bn & _ & _ & Henv & _ & _ & _ & -> & _)]].
  - now left.
  - right. exists b. split; [exact Henv | now left].
  - right. exists b. split; [exact Henv|]. right. now eexists.
Qed.

(** X12: a response of the handler has status 200 or 400.  It has status
    200 exactly after a signing request that the signer answered, and its
    body is then the JSON encoding of the signer's URL; a 400 response
    follows no signing request, and its body is one of the two messages. *)
Theorem handler_response_status (ev : event) (t t' : list call)
    (resp : response) :
  lambda_handler p ev t = (Ok resp, t') ->
  (statusCode resp = 200%Z /\
   exists before rq url,
     t' = before ++ [GeneratePresignedUrl rq] /\
     generate_presigned_url p rq = Some url /\
     body resp = json_dumps url) \/
  (statusCode resp = 400%Z /\
   signed t' = signed t /\
   (body resp = json_dumps please_specify \/
    body resp = json_dumps could_not_generate)).
Proof.
  intros H.
  assert (Hsigned : forall b, signed (t ++ [GetObject b "config.json"]) = signed t).
  { intros b. rewrite signed_app. simpl. apply app_nil_r. }
  destruct (handler_cases _ _ _ _ H)
    as [(-> & [Hr | [e Hr]]) | [(b & _ & -> & [Hr | [e Hr]]) |
        (b & params & filename & c & e & d & bn & _ & _ & _ & _ & _ & _ & -> & Hr)]];
    try discriminate.
  - injection Hr as ->. right. simpl. repeat split. now left.
  - injection Hr as ->. right. simpl. split; [reflexivity|].
    split; [apply Hsigned | now right].
  - destruct (generate_presigned_url p _) as [url|] eqn:Hurl; [|discriminate].
    injection Hr as ->. left. split; [reflexivity|].
    exists (t ++ [GetObject b "config.json"]),
           (put_request bn (path e) filename (Some params)), url.
    split; [now rewrite <- app_assoc | split; [exact Hurl | reflexivity]].
Qed.

(** X13: whenever the handler has a URL signed, the request carries every
    query parameter of the event, the filename among them, unchanged and in
    order, as the metadata of the object; the key is the path of the first
    matching entry of the loaded catalog followed by the filename, and the
    method and the validity are [put_object] and 3600 seconds. *)
Theorem handler_forwards_all_parameters (ev : event) (t calls : list call)
    (r : result response) (rq : presign_request) :
  lambda_handler p ev t = (r, t ++ calls) ->
  In rq (signed calls) ->
  exists params filename c t1 e d bucket_name,
    queryStringParameters ev = Some (Some params) /\
    dict_get params "filename" = Some filename /\
    _load_allowed_filenames p t = (Ok c, t1) /\
    first_match c filename e d /\
    dict_get (environ p) "S3_BUCKET" = Some bucket_name /\
    rq = {| ClientMethod := "put_object";
            Bucket := slice_from 5 bucket_name;
            Key := (path e ++ filename)%string;
            Metadata := params;
            ExpiresIn := 3600 |}.
Proof.
  intros H Hin.
  destruct (handler_cases _ _ _ _ H)
    as [(Ht & _) | [(b & _ & Ht & _) |
        (b & params & filename & c & e & d & bn & Hq & Hf & _ & Hload & Hfirst & Hbn & Ht & _)]].
  - rewrite <- (app_nil_r t) in Ht at 2. apply app_inv_head in Ht. subst calls.
    destruct Hin.
  - apply app_inv_head in Ht. subst calls. destruct Hin.
  - apply app_inv_head in Ht. subst calls. simpl in Hin.
    destruct Hin as [<- | []].
    exists params, filename, c, (t ++ [GetObject b "config.json"]), e, d, bn.
    repeat split; try assumption.
    unfold put_request. now rewrite tags_or_dict_supplied.
Qed.

End Responses.

(** ** Faults of the collaborators *)

Section Faults.

Variable p : platform.




(** X15: the environment variable [S3_BUCKET] is read only once an entry
    has matched.  When it is missing, a request whose filename matches an
    entry ends in KeyError after the catalog fetch, with nothing signed. *)
Theorem handler_without_upload_bucket (ev : event) (params : dict)
    (filename : string) (t t1 : list call) (c : catalog) (e : filetype)
    (d : dict) :
  queryStringParameters ev = Some (Some params) ->
  dict_get params "filename" = Some filename ->
  _load_allowed_filenames p t = (Ok c, t1) ->
  In e c ->
  _check_for_matching_filetype (pattern e) filename = Ok (Some d) ->
  dict_get (environ p) "S3_BUCKET" = None ->
  lambda_handler p ev t = (Raise (KeyError "S3_BUCKET"), t1).
Proof.
  intros Hq Hf Hload Hin Hm Henv.
  rewrite (handler_unfold p ev params filename t Hq Hf).
  rewrite (generate_unfold p filename (Some params) t c t1 Hload).
  destruct (first_match_or_none filename c) as [(e1 & d1 & Hfirst) | Hnone].
  - rewrite (for_filetypes_first_match filename c e1 d1 Hfirst). simpl.
    now rewrite Henv.
  - rewrite Forall_forall in Hnone. specialize (Hnone e Hin).
    unfold rejects in Hnone. congruence.
Qed.

(** X16: when the signer refuses the request, the handler gives no response:
    it ends in the signer's fault, after the catalog fetch and the one
    signing request, for the key of the first matching entry. *)
Theorem handler_when_signer_refuses (ev : event) (params : dict)
    (filename : string) (t t1 : list call) (c : catalog) (e : filetype)
    (d : dict) (bucket_name : string) :
  queryStringParameters ev = Some (Some params) ->
  dict_get params "filename" = Some filename ->
  _load_allowed_filenames p t = (Ok c, t1) ->
  first_match c filename e d ->
  dict_get (environ p) "S3_BUCKET" = Some bucket_name ->
  generate_presigned_url p
    {| ClientMethod := "put_object";
       Bucket := slice_from 5 bucket_name;
       Key := (path e ++ filename)%string;
       Metadata := params;
       ExpiresIn := 3600 |} = None ->
  lambda_handler p ev t
  = (Raise ClientError,
     t1 ++ [GeneratePresignedUrl
              {| ClientMethod := "put_object";
                 Bucket := slice_from 5 bucket_name;
                 Key := (path e ++ filename)%string;
                 Metadata := params;
                 ExpiresIn := 3600 |}]).
Proof.
  intros Hq Hf Hload Hfirst Henv Hsign.
  rewrite (handler_unfold p ev params filename t Hq Hf).
  rewrite (generate_unfold p filename (Some params) t c t1 Hload).
  rewrite (for_filetypes_first_match filename c e d Hfirst). simpl.
  rewrite Henv. cbv zeta. unfold put_request.
  rewrite tags_or_dict_supplied. now rewrite Hsign.
Qed.

End Faults.

(** ** The further properties on concrete requests *)

Section FurtherWitnesses.

Lemma match_needs_equal_counts_witness :
  length (tokenize "imap.l0") = length [("mission", "imap"); ("level", "*")] /\
  [("mission", "imap"); ("level", "*")] <> [] /\
  [("mission", "imap"); ("level", "l0")] <> [].
Proof.
  apply (match_needs_equal_counts [("mission", "imap"); ("level", "*")] "imap.l0"
           [("mission", "imap"); ("level", "l0")] eq_refl).
Defined.

Lemma match_result_lookup_witness :
  exists tok,
    nth_error (tokenize "imap.l0") 0 = Some tok /\
    dict_get [("mission", "imap"); ("level", "l0")] "mission" = Some tok /\
    ("imap" <> "*" -> tok = "imap").
Proof.
  assert (Hnd : NoDup (keys [("mission", "imap"); ("level", "*")])).
  { repeat constructor; simpl; intuition discriminate. }
  apply (match_result_lookup [("mission", "imap"); ("level", "*")] "imap.l0"
           [("mission", "imap"); ("level", "l0")] 0 "mission" "imap"
           Hnd eq_refl eq_refl).
Defined.

Lemma walk_ignores_later_entries_witness :
  for_filetypes sample_catalog "imap_mag_l0_20240101_v001.cdf" unbound
  = for_filetypes
      [ {| path := "imap/l0/";
           pattern := [("mission", "imap"); ("instrument", "*"); ("level", "l0");
                       ("date", "*"); ("version", "*"); ("extension", "pkts")] |};
        {| path := "imap/science/";
           pattern := [("mission", "imap"); ("instrument", "*"); ("level", "*");
                       ("date", "*"); ("version", "*"); ("extension", "*")] |} ]
      "imap_mag_l0_20240101_v001.cdf"
      {| path_to_upload_file := Some "stale/"; metadata := Some None |}.
Proof.
  apply (walk_ignores_later_entries "imap_mag_l0_20240101_v001.cdf"
           [ {| path := "imap/l0/";
                pattern := [("mission", "imap"); ("instrument", "*"); ("level", "l0");
                            ("date", "*"); ("version", "*"); ("extension", "pkts")] |} ]
           [ {| path := "misc/"; pattern := [("name", "*")] |} ] []
           {| path := "imap/science/";
              pattern := [("mission", "imap"); ("instrument", "*"); ("level", "*");
                          ("date", "*"); ("version", "*"); ("extension", "*")] |}
           [("mission", "imap"); ("instrument", "mag"); ("level", "l0");
            ("date", "20240101"); ("version", "v001"); ("extension", "cdf")]).
  - repeat constructor.
  - reflexivity.
Defined.

Lemma load_succeeds_iff_witness :
  _load_allowed_filenames (sample_platform sample_catalog) []
  = (Ok sample_catalog, [GetObject "sds-config" "config.json"]).
Proof.
  apply (proj2 (load_succeeds_iff (sample_platform sample_catalog) []
                  [GetObject "sds-config" "config.json"] sample_catalog)).
  exists "sds-config", "<config.json>". repeat split.
Defined.

Lemma sliced_bucket_is_suffix_witness :
  exists rq before stripped,
    [GetObject "sds-config" "config.json";
     GeneratePresignedUrl
       {| ClientMethod := "put_object";
          Bucket := "sds-data";
          Key := "imap/science/imap_mag_l0_20240101_v001.cdf";
          Metadata := [];
          ExpiresIn := 3600 |}]
    = before ++ [GeneratePresignedUrl rq] /\
    "s3://sds-data" = (stripped ++ Bucket rq)%string /\
    String.length stripped = Nat.min 5 (String.length "s3://sds-data").
Proof.
  apply (sliced_bucket_is_suffix (sample_platform sample_catalog)
           "imap_mag_l0_20240101_v001.cdf" None [] _ _ "s3://sds-data"
           eq_refl eq_refl).
Defined.

Lemma handler_call_discipline_witness :
  [GetObject "sds-config" "config.json"] = [] \/
  exists bucket,
    dict_get (environ (sample_platform sample_catalog)) "S3_CONFIG_BUCKET_NAME"
    = Some bucket /\
    ([GetObject "sds-config" "config.json"] = [] ++ [GetObject bucket "config.json"] \/
     exists rq,
       [GetObject "sds-config" "config.json"]
       = [] ++ [GetObject bucket "config.json"; GeneratePresignedUrl rq]).
Proof.
  apply (handler_call_discipline (sample_platform sample_catalog)
           (request [("filename", "unknown_file.dat")]) []
           [GetObject "sds-config" "config.json"]
           (Ok {| statusCode := 400; body := json_dumps could_not_generate |})).
  reflexivity.
Defined.

Lemma handler_response_status_witness :
  (200%Z = 200%Z /\
   exists before rq url,
     [GetObject "sds-config" "config.json";
      GeneratePresignedUrl
        {| ClientMethod := "put_object";
           Bucket := "sds-data";
           Key := "misc/readme";
           Metadata := [("filename", "readme")];
           ExpiresIn := 3600 |}]
     = before ++ [GeneratePresignedUrl rq] /\
     generate_presigned_url (sample_platform sample_catalog) rq = Some url /\
     json_dumps "https://sds-data.s3.amazonaws.com/misc/readme?X-Amz-Expires=3600"
     = json_dumps url) \/
  (200%Z = 400%Z /\
   signed
     [GetObject "sds-config" "config.json";
      GeneratePresignedUrl
        {| ClientMethod := "put_object";
           Bucket := "sds-data";
           Key := "misc/readme";
           Metadata := [("filename", "readme")];
           ExpiresIn := 3600 |}]
   = signed [] /\
   (json_dumps "https://sds-data.s3.amazonaws.com/misc/readme?X-Amz-Expires=3600"
    = json_dumps please_specify \/
    json_dumps "https://sds-data.s3.amazonaws.com/misc/readme?X-Amz-Expires=3600"
    = json_dumps could_not_generate)).
Proof.
  apply (handler_response_status (sample_platform sample_catalog)
           (request [("filename", "readme")]) [] _
           {| statusCode := 200;
              body := json_dumps
                "https://sds-data.s3.amazonaws.com/misc/readme?X-Amz-Expires=3600" |}).
  reflexivity.
Defined.

Lemma handler_forwards_all_parameters_witness :
  exists params filename c t1 e d bucket_name,
    queryStringParameters (request [("filename", "readme"); ("owner", "mag")])
    = Some (Some params) /\
    dict_get params "filename" = Some filename /\
    _load_allowed_filenames (sample_platform sample_catalog) [] = (Ok c, t1) /\
    first_match c filename e d /\
    dict_get (environ (sample_platform sample_catalog)) "S3_BUCKET"
    = Some bucket_name /\
    {| ClientMethod := "put_object";
       Bucket := "sds-data";
       Key := "misc/readme";
       Metadata := [("filename", "readme"); ("owner", "mag")];
       ExpiresIn := 3600 |}
    = {| ClientMethod := "put_object";
         Bucket := slice_from 5 bucket_name;
         Key := (path e ++ filename)%string;
         Metadata := params;
         ExpiresIn := 3600 |}.
Proof.
  apply (handler_forwards_all_parameters (sample_platform sample_catalog)
           (request [("filename", "readme"); ("owner", "mag")]) []
           [GetObject "sds-config" "config.json";
            GeneratePresignedUrl
              {| ClientMethod := "put_object";
                 Bucket := "sds-data";
                 Key := "misc/readme";
                 Metadata := [("filename", "readme"); ("owner", "mag")];
                 ExpiresIn := 3600 |}]
           (Ok {| statusCode := 200;
                  body := json_dumps
                    "https://sds-data.s3.amazonaws.com/misc/readme?X-Amz-Expires=3600" |})).
  - reflexivity.
  - simpl. left. reflexivity.
Defined.


Lemma handler_without_upload_bucket_witness :
  lambda_handler
    (sample_platform_in [("S3_CONFIG_BUCKET_NAME", "sds-config")] sample_catalog)
    (request [("filename", "readme")]) []
  = (Raise (KeyError "S3_BUCKET"), [GetObject "sds-config" "config.json"]).
Proof.
  apply (handler_without_upload_bucket
           (sample_platform_in [("S3_CONFIG_BUCKET_NAME", "sds-config")] sample_catalog)
           (request [("filename", "readme")]) [("filename", "readme")] "readme"
           [] [GetObject "sds-config" "config.json"] sample_catalog
           {| path := "misc/"; pattern := [("name", "*")] |}
           [("name", "readme")]).
  - reflexivity.
  - reflexivity.
  - reflexivity.
  - simpl. right. right. left. reflexivity.
  - reflexivity.
  - reflexivity.
Defined.

Lemma handler_when_signer_refuses_witness :
  lambda_handler
    (sample_platform_in
       [("S3_CONFIG_BUCKET_NAME", "sds-config"); ("S3_BUCKET", "s3://")]
       sample_catalog)
    (request [("filename", "readme")]) []
  = (Raise ClientError,
     [GetObject "sds-config" "config.json"]
     ++ [GeneratePresignedUrl
           {| ClientMethod := "put_object";
              Bucket := slice_from 5 "s3://";
              Key := ("misc/" ++ "readme")%string;
              Metadata := [("filename", "readme")];
              ExpiresIn := 3600 |}]).
Proof.
  apply (handler_when_signer_refuses
           (sample_platform_in
              [("S3_CONFIG_BUCKET_NAME", "sds-config"); ("S3_BUCKET", "s3://")]
              sample_catalog)
           (request [("filename", "readme")]) [("filename", "readme")] "readme"
           [] [GetObject "sds-config" "config.json"] sample_catalog
           {| path := "misc/"; pattern := [("name", "*")] |}
           [("name", "readme")] "s3://").
  - reflexivity.
  - reflexivity.
  - reflexivity.
  - exists [ {| path := "imap/l0/";
               pattern := [("mission", "imap"); ("instrument", "*"); ("level", "l0");
                           ("date", "*"); ("version", "*"); ("extension", "pkts")] |};
             {| path := "imap/science/";
               pattern := [("mission", "imap"); ("instrument", "*"); ("level", "*");
                           ("date", "*"); ("version", "*"); ("extension", "*")] |} ],
           [].
    split; [reflexivity|]. split; [|reflexivity].
    repeat constructor.
  - reflexivity.
  - reflexivity.
Defined.

End FurtherWitnesses.
